(** * effluent: one time step of the buoyant jet model ([effluent/jet.py])
    and the ROMS helpers ([effluent/roms.py])

    The module [jet.py] holds three functions: the public entry point
    [pipe_discharge], the single step [pipe_discharge_single_timestep] of the
    jet element integration, and the [xarray] constructor [jet].

    The step is straight-line arithmetic on numbers.  It is translated once,
    over an interface [Arith] of the operations it uses, and read in two ways:
    - over the real numbers ([Arith_R]), the exact arithmetic in which the
      formulas of the model are stated;
    - over IEEE 754 binary64 ([Arith_float]), the arithmetic of Python's
      [float] and NumPy's [float64], where division by zero does not raise
      but yields an infinity or a NaN. *)

From Stdlib Require Import Floats.
From Stdlib Require Import Reals Lra Lia Psatz.
From Stdlib Require Import List String Sorted.
Import ListNotations.

(** ** The arithmetic used by the source *)

Declare Scope arith_scope.
Delimit Scope arith_scope with ar.

Class Arith (F : Type) : Type := {
  add : F -> F -> F;
  sub : F -> F -> F;
  mul : F -> F -> F;
  div : F -> F -> F;
  np_sqrt : F -> F;      (* np.sqrt *)
  np_pi : F;             (* np.pi *)
  lit_0 : F;             (* the literal 0 *)
  lit_2 : F;             (* the literal 2 *)
  lit_0_057 : F;         (* the literal 0.057 *)
  lit_9_81 : F           (* the literal 9.81 *)
}.

Infix "+" := add : arith_scope.
Infix "-" := sub : arith_scope.
Infix "*" := mul : arith_scope.
Infix "/" := div : arith_scope.

(** Exact arithmetic.  Division in [R] is total ([/ 0] is a real number), so
    a quotient by zero has a value there that the program does not compute;
    the theorems below that rest on a quotient state its divisor non-zero. *)
#[export] Instance Arith_R : Arith R := {|
  add := Rplus; sub := Rminus; mul := Rmult; div := Rdiv;
  np_sqrt := R_sqrt.sqrt;
  np_pi := PI;
  lit_0 := 0%R;
  lit_2 := 2%R;
  lit_0_057 := (57 / 1000)%R;
  lit_9_81 := (981 / 100)%R
|}.

(** IEEE 754 binary64, round to nearest even: the kernel's primitive floats.
    [np.pi] is the double nearest to pi, and the decimal literals denote the
    doubles nearest to them, as in Python. *)
#[export] Instance Arith_float : Arith float := {|
  add := PrimFloat.add; sub := PrimFloat.sub;
  mul := PrimFloat.mul; div := PrimFloat.div;
  np_sqrt := PrimFloat.sqrt;
  np_pi := 0x1.921fb54442d18p+1%float;
  lit_0 := 0%float;
  lit_2 := 2%float;
  lit_0_057 := 0x1.d2f1a9fbe76c9p-5%float;
  lit_9_81 := 0x1.39eb851eb851fp+3%float
|}.

(** Arithmetic in which every operation returns its exact result rounded by
    [rnd].  Binary64 rounds every result to the nearest double; as long as no
    operation overflows to an infinity or produces a NaN, its operations are
    those of [Arith_rounded rnd] for that rounding.  The literals [0] and [2]
    are doubles; [np.pi], [0.057] and [9.81] are rounded.  With [rnd] the
    identity this is [Arith_R]. *)
Definition Arith_rounded (rnd : R -> R) : Arith R := {|
  add := fun x y => rnd (x + y)%R;
  sub := fun x y => rnd (x - y)%R;
  mul := fun x y => rnd (x * y)%R;
  div := fun x y => rnd (x / y)%R;
  np_sqrt := fun x => rnd (R_sqrt.sqrt x);
  np_pi := rnd PI;
  lit_0 := 0%R;
  lit_2 := 2%R;
  lit_0_057 := rnd (57 / 1000)%R;
  lit_9_81 := rnd (981 / 100)%R
|}.

Module Rounding.
Local Open Scope R_scope.

(** The rounding has relative error at most [eps]: what binary64 rounding to
    nearest guarantees with [eps = 2^-53] for results that neither overflow
    nor underflow. *)
Definition within (eps : R) (rnd : R -> R) : Prop :=
  forall x : R, Rabs (rnd x - x) <= eps * Rabs x.

(** The rounding keeps [0] and every value it returns, and it keeps the
    order: what binary64 rounding to nearest guarantees for results that do
    not overflow. *)
Definition monotone (rnd : R -> R) : Prop :=
  rnd 0 = 0 /\
  (forall x : R, rnd (rnd x) = rnd x) /\
  (forall x y : R, x <= y -> rnd x <= rnd y).

(** Two roundings to try the theorems on: towards zero by the relative unit
    [2^-53], and down to the next multiple of [2^-10]. *)
Definition chop (x : R) : R := x * (1 - / 2 ^ 53).

Definition to_grid (x : R) : R := IZR (Int_part (x * 2 ^ 10)) / 2 ^ 10.

End Rounding.

(** ** [jet.py] *)

Module Jet.

(** The twelve-tuple returned by [pipe_discharge_single_timestep], in the
    order of the [return] statement. *)
Record state (F : Type) : Type := mk_state {
  st_t : F; st_m : F; st_c : F; st_rho : F;
  st_u : F; st_v : F; st_w : F;
  st_h : F; st_b : F;
  st_x : F; st_y : F; st_z : F
}.

Arguments mk_state {F}.
Arguments st_t {F}. Arguments st_m {F}. Arguments st_c {F}.
Arguments st_rho {F}. Arguments st_u {F}. Arguments st_v {F}.
Arguments st_w {F}. Arguments st_h {F}. Arguments st_b {F}.
Arguments st_x {F}. Arguments st_y {F}. Arguments st_z {F}.

Section pipe_discharge_single_timestep.
Context {F : Type} {A : Arith F}.
Local Open Scope arith_scope.

(** [np.dot] of two lists: the sum of the products of the entries at the
    same index, accumulated from the left. *)
Fixpoint np_dot_from (acc : F) (p q : list F) : F :=
  match p, q with
  | a :: p', b :: q' => np_dot_from (acc + a * b) p' q'
  | _, _ => acc
  end.

Definition np_dot (p q : list F) : F :=
  match p, q with
  | a :: p', b :: q' => np_dot_from (a * b) p' q'
  | _, _ => lit_0
  end.

(** The parameters of the function, in the order of its signature. *)
Variables (dt t m c rho u v w h b x y z ua va rho_a : F).

(** One definition per assignment of the body, in the order of the source. *)
Definition wa : F := lit_0.
Definition g : F := lit_9_81.

Definition t_new : F := t + dt.

Definition alpha_s : F := np_sqrt lit_2 * lit_0_057.
Definition vel : F := np_sqrt (u * u + v * v + w * w).
Definition delta_u : F := vel - np_dot [ua; va; wa] [u; v; w] / vel.
Definition dm : F := lit_2 * np_pi * alpha_s * b * h * delta_u * dt.
Definition m_new : F := m + dm.

Definition rho_new : F := (m * rho + dm * rho_a) / m_new.
Definition c_new : F := m * c / m_new.
Definition u_new : F := (m * u + dm * ua) / m_new.
Definition v_new : F := (m * v + dm * va) / m_new.

Definition w_new : F :=
  (m * w + m_new * ((rho_new - rho_a) / rho_new) * g * dt).
Definition vel_new : F :=
  np_sqrt (u_new * u_new + v_new * v_new + w_new * w_new).

Definition h_new : F := (vel_new / vel) * h.
Definition b_new : F := np_sqrt (m_new / (rho_new * np_pi * h_new)).

Definition x_new : F := x + u_new * dt.
Definition y_new : F := y + v_new * dt.
Definition z_new : F := z + w_new * dt.

Definition pipe_discharge_single_timestep : state F :=
  mk_state t_new m_new c_new rho_new u_new v_new w_new h_new b_new
           x_new y_new z_new.

End pipe_discharge_single_timestep.

(** ** [jet] and [pipe_discharge] *)

(** [xr.Variable(dims=..., data=..., attrs=...)]. *)
Record xr_Variable (V : Type) : Type := mk_Variable {
  dims : string;
  data : list V;
  attrs : list (string * string)
}.

Arguments mk_Variable {V}.
Arguments dims {V}. Arguments data {V}. Arguments attrs {V}.

(** [xr.Dataset(data_vars=..., coords=...)]; each [dict] keeps its keys in
    insertion order. *)
Record xr_Dataset (V : Type) : Type := mk_Dataset {
  data_vars : list (string * xr_Variable V);
  coords : list (string * xr_Variable V)
}.

Arguments mk_Dataset {V}.
Arguments data_vars {V}. Arguments coords {V}.

(** Lookup of a key in a [dict]. *)
Fixpoint dict_get {B : Type} (k : string) (d : list (string * B)) : option B :=
  match d with
  | [] => None
  | (k', x) :: d' => if String.eqb k k' then Some x else dict_get k d'
  end.

Section jet.
Context {V : Type}.

(** The two parameters are never read, so they may be of any type. *)
Definition jet {T D : Type} (time : T) (density : D) : xr_Dataset V :=
  mk_Dataset
    [("density"%string, mk_Variable "time" [] [])]
    [("time"%string, mk_Variable "time" [] [])].

(** [None] is the only value of its type, as [tt] is of [unit]. *)
Definition pipe_discharge : xr_Dataset V := jet tt tt.

End jet.

End Jet.

(** ** The driver loop around the step *)

Module Driver.
Import Jet.

(** One sample of the ambient fields: horizontal velocity and density. *)
Record ambient (F : Type) : Type := mk_ambient {
  amb_ua : F; amb_va : F; amb_rho : F
}.

Arguments mk_ambient {F}.
Arguments amb_ua {F}. Arguments amb_va {F}. Arguments amb_rho {F}.

Section trajectory.
Context {F : Type} {A : Arith F}.

(** The step applied to a returned tuple and an ambient sample. *)
Definition step (dt : F) (s : state F) (a : ambient F) : state F :=
  pipe_discharge_single_timestep dt
    (st_t s) (st_m s) (st_c s) (st_rho s) (st_u s) (st_v s) (st_w s)
    (st_h s) (st_b s) (st_x s) (st_y s) (st_z s)
    (amb_ua a) (amb_va a) (amb_rho a).

(** Modelled from the spec: the stepping loop of the Trajectory Driver, which
    the source does not contain.  Each state is stepped with the next ambient
    sample and appended; [samples] are the values the sampler returned along
    the run, so the loop ends when they do. *)
Fixpoint trajectory (dt : F) (s : state F) (samples : list (ambient F))
  : list (state F) :=
  match samples with
  | [] => [s]
  | a :: rest => s :: trajectory dt (step dt s a) rest
  end.

End trajectory.

End Driver.

(** ** Predicates on steps and runs, over the reals *)

Module Predicates.
Import Jet Driver.

(** One state has at most the mass of the next. *)
Definition mass_le (s s' : state R) : Prop := (st_m s <= st_m s')%R.

(** Every step of the run from [s] over [samples], in the arithmetic that
    rounds by [rnd], starts from a non-zero speed and a non-negative radius
    and thickness, and has a non-negative [delta_u]. *)
Fixpoint entraining (rnd : R -> R) (dt : R) (s : state R)
  (samples : list (ambient R)) : Prop :=
  match samples with
  | [] => True
  | a :: rest =>
      (@vel R (Arith_rounded rnd) (st_u s) (st_v s) (st_w s) <> 0
       /\ 0 <= @delta_u R (Arith_rounded rnd)
                 (st_u s) (st_v s) (st_w s) (amb_ua a) (amb_va a)
       /\ 0 <= st_b s /\ 0 <= st_h s)%R
      /\ entraining rnd dt (@step R (Arith_rounded rnd) dt s a) rest
  end.

(** The step leaves mass, density, tracer and the three velocity components
    as they were. *)
Definition steady (dt t m c rho u v w h b x y z ua va rho_a : R) : Prop :=
  let s := pipe_discharge_single_timestep
             dt t m c rho u v w h b x y z ua va rho_a in
  (st_m s = m /\ st_rho s = rho /\ st_c s = c /\
   st_u s = u /\ st_v s = v /\ st_w s = w)%R.

End Predicates.

(** ** The formulas of the specification

    Written from the specification's sentences, over the reals, to be compared
    with what the source computes. *)

Module Spec.
Local Open Scope R_scope.

Definition g : R := 981 / 100.

(** The entrainment coefficient, [sqrt 2 * 0.057]. *)
Definition alpha : R := sqrt 2 * (57 / 1000).

(** [vel = |velocity|]. *)
Definition speed (u v w : R) : R := sqrt (u * u + v * v + w * w).

(** [delta_u = vel - (ambient_velocity . velocity) / vel], the ambient
    vertical velocity being [0]. *)
Definition delta_u (u v w ua va : R) : R :=
  speed u v w - (ua * u + va * v + 0 * w) / speed u v w.

(** [dm/dt = 2 pi alpha radius thickness delta_u]. *)
Definition entrainment_rate (radius thickness du : R) : R :=
  2 * PI * alpha * radius * thickness * du.

(** [Delta m = dm/dt * dt]. *)
Definition delta_m (radius thickness du dt : R) : R :=
  entrainment_rate radius thickness du * dt.

Definition new_mass (mass Dm : R) : R := mass + Dm.

Definition new_density (mass density Dm ambient_density : R) : R :=
  (mass * density + Dm * ambient_density) / new_mass mass Dm.

Definition new_tracer (mass tracer Dm : R) : R :=
  mass * tracer / new_mass mass Dm.

(** Horizontal momentum mixing, for [u] with [ambient_u] and for [v] with
    [ambient_v]. *)
Definition new_horizontal (mass vel_h Dm ambient_h : R) : R :=
  (mass * vel_h + Dm * ambient_h) / new_mass mass Dm.

(** [new_w = (mass w + new_mass ((new_density - ambient_density) /
    new_density) g dt) / new_mass]. *)
Definition new_w (mass w Nm Nrho ambient_density dt : R) : R :=
  (mass * w + Nm * ((Nrho - ambient_density) / Nrho) * g * dt) / Nm.

End Spec.

(** ** Classes of binary64 values *)

Module IEEE.

(** Classes of a binary64 value, on its specification. *)
Definition SFis_nan (x : spec_float) : bool :=
  match x with S754_nan => true | _ => false end.

Definition SFis_zero (x : spec_float) : bool :=
  match x with S754_zero _ => true | _ => false end.

Definition SFzero_or_nan (x : spec_float) : bool :=
  SFis_zero x || SFis_nan x.

Definition SFnot_finite (x : spec_float) : bool :=
  match x with S754_nan | S754_infinity _ => true | _ => false end.

End IEEE.

(** ** [roms.py]

    The variables of a ROMS dataset are arrays, which [xarray] combines entry
    by entry; the functions are given at one entry of each array they read,
    over the reals. *)

Module Roms.
Local Open Scope R_scope.

(** What a call raises. *)
Inductive exn : Type :=
| ValueError (msg : string) (value : Z).

Inductive result (A : Type) : Type :=
| Ok (a : A)
| Raise (e : exn).

Arguments Ok {A}.
Arguments Raise {A}.

(** The entries that [add_zrho] reads. *)
Record grid_entry : Type := mk_grid_entry {
  Vtransform : Z;
  hc : R; s_rho : R; Cs_r : R; h : R; zeta : R
}.

(** [add_zrho]: the pair of the entries of [z_rho] and [z_rho_star] that are
    assigned as coordinates. *)
Definition add_zrho (dset : grid_entry) : result (R * R) :=
  let vtrans := Vtransform dset in
  if Z.eqb vtrans 1 then
    let z_rho_star :=
      hc dset * (s_rho dset - Cs_r dset) + Cs_r dset * h dset in
    let z_rho := z_rho_star + zeta dset * (1 + z_rho_star / h dset) in
    Ok (z_rho, z_rho_star)
  else if Z.eqb vtrans 2 then
    let z_rho_0 :=
      (hc dset * s_rho dset + Cs_r dset * h dset) / (hc dset + h dset) in
    let z_rho_star := z_rho_0 * h dset in
    let z_rho := zeta dset + z_rho_0 * (zeta dset + h dset) in
    Ok (z_rho, z_rho_star)
  else Raise (ValueError "Unknown Vtransform: " vtrans).

(** [np.clip(x, a_min, a_max)], which is [minimum(maximum(x, a_min), a_max)]. *)
Definition np_clip (x a_min a_max : R) : R := Rmin (Rmax x a_min) a_max.

(** [int(x)]: the integer part, towards zero. *)
Definition py_int (x : R) : Z :=
  if Rle_dec 0 x then Int_part x else (- Int_part (- x))%Z.

(** The keyword arguments of the call of [dset.interp] in
    [interpolate_latlon]. *)
Record interp_coords : Type := mk_interp_coords {
  xi_rho : R; eta_rho : R;
  xi_u : R; eta_u : Z;
  xi_v : Z; eta_v : R
}.

(** [interpolate_latlon] from the fractional grid indices [(y, x)] that
    [bilin_inv] returned, down to the arguments it hands to [dset.interp];
    [dim_xi_rho] and [dim_eta_rho] are [dset.dims['xi_rho']] and
    [dset.dims['eta_rho']]. *)
Definition interpolate_latlon (y x : R) (dim_xi_rho dim_eta_rho : Z)
  : interp_coords :=
  let x_min := 5 / 10 in
  let y_min := 5 / 10 in
  let x_max := IZR dim_xi_rho - 15 / 10 in
  let y_max := IZR dim_eta_rho - 15 / 10 in
  let x := np_clip x x_min x_max in
  let y := np_clip y y_min y_max in
  mk_interp_coords x y (x - 5 / 10) (py_int (y + 5 / 10))
                   (py_int (x + 5 / 10)) (y - 5 / 10).

End Roms.

(** ** The step over the reals *)

Module JetReal.
Import Jet Driver Predicates.
Local Open Scope R_scope.

(** Unfolds the body of the step down to the operations of [R]. *)
Ltac unfold_step :=
  unfold step, pipe_discharge_single_timestep, z_new, y_new, x_new, b_new,
    h_new, vel_new, w_new, v_new, u_new, c_new, rho_new, m_new, dm, delta_u,
    vel, alpha_s, t_new, g, wa, np_dot, np_dot_from;
  cbn [st_t st_m st_c st_rho st_u st_v st_w st_h st_b st_x st_y st_z
       amb_ua amb_va amb_rho
       add sub mul div np_sqrt np_pi lit_0 lit_2 lit_0_057 lit_9_81 Arith_R].

Lemma alpha_s_eq : @alpha_s R _ = Spec.alpha.
Proof. reflexivity. Qed.

Lemma alpha_s_pos : 0 < @alpha_s R _.
Proof.
  unfold_step.
  apply Rmult_lt_0_compat; [apply sqrt_lt_R0 | ]; lra.
Qed.

Lemma vel_eq (u v w : R) : vel u v w = Spec.speed u v w.
Proof. reflexivity. Qed.

Lemma vel_nonneg (u v w : R) : 0 <= vel u v w.
Proof. unfold_step. apply sqrt_pos. Qed.

Lemma vel_sqr (u v w : R) : vel u v w * vel u v w = u * u + v * v + w * w.
Proof. unfold_step. apply sqrt_sqrt. nra. Qed.

Lemma delta_u_eq (u v w ua va : R) :
  delta_u u v w ua va = Spec.delta_u u v w ua va.
Proof. reflexivity. Qed.

Lemma dm_eq (dt u v w h b ua va : R) :
  dm dt u v w h b ua va = Spec.delta_m b h (delta_u u v w ua va) dt.
Proof. reflexivity. Qed.

(** The factor in front of [delta_u] in [dm]. *)
Lemma dm_factor_nonneg (dt h b : R) :
  0 <= b -> 0 <= h -> 0 <= dt ->
  0 <= 2 * PI * @alpha_s R _ * b * h /\ 0 <= dt.
Proof.
  intros Hb Hh Hdt. split; [ | assumption].
  pose proof PI_RGT_0 as Hpi. pose proof alpha_s_pos as Ha.
  generalize dependent (@alpha_s R _). intros a Ha.
  apply Rmult_le_pos; [apply Rmult_le_pos | ]; try assumption.
  apply Rlt_le, Rmult_lt_0_compat; lra.
Qed.

Lemma dm_nonneg (dt u v w h b ua va : R) :
  0 <= delta_u u v w ua va -> 0 <= b -> 0 <= h -> 0 <= dt ->
  0 <= dm dt u v w h b ua va.
Proof.
  intros Hd Hb Hh Hdt.
  destruct (dm_factor_nonneg dt h b Hb Hh Hdt) as [Hk _].
  change (dm dt u v w h b ua va)
    with (2 * PI * @alpha_s R _ * b * h * delta_u u v w ua va * dt).
  apply Rmult_le_pos; [apply Rmult_le_pos | ]; assumption.
Qed.

Lemma vel_neq_0 (u v w : R) : 0 < u * u + v * v + w * w -> vel u v w <> 0.
Proof.
  intros H. pose proof (vel_sqr u v w) as Hs. intros H0.
  rewrite H0 in Hs. lra.
Qed.

(** With no vertical velocity and the ambient moving as the jet does, the
    velocity difference along the jet vanishes. *)
Lemma delta_u_no_shear (u v : R) :
  vel u v 0 <> 0 -> delta_u u v 0 u v = 0.
Proof.
  intros Hv. pose proof (vel_sqr u v 0) as Hs.
  change (delta_u u v 0 u v)
    with (vel u v 0 - (u * u + v * v + 0 * 0) / vel u v 0).
  rewrite <- Hs. field. exact Hv.
Qed.

(** *** The formulas of the step *)

(** C5. With a non-zero jet speed [vel] and the ambient vertical velocity [0],
    the step computes [delta_u = vel - (ambient_velocity . velocity) / vel] and
    the entrained mass [2 pi alpha radius thickness delta_u dt] with
    [alpha = sqrt 2 * 0.057], and returns the mass [m] plus that. *)
Theorem entrainment_closure
  (dt t m c rho u v w h b x y z ua va rho_a : R) :
  vel u v w <> 0 ->
  vel u v w = sqrt (u * u + v * v + w * w) /\
  delta_u u v w ua va = Spec.delta_u u v w ua va /\
  Spec.alpha = sqrt 2 * (57 / 1000) /\
  dm dt u v w h b ua va = Spec.delta_m b h (Spec.delta_u u v w ua va) dt /\
  st_m (pipe_discharge_single_timestep
          dt t m c rho u v w h b x y z ua va rho_a)
  = m + Spec.delta_m b h (Spec.delta_u u v w ua va) dt.
Proof.
  intros _. repeat split.
Qed.

Lemma entrainment_closure_witness :
  vel 1 0 0 <> 0 /\
  st_m (pipe_discharge_single_timestep
          1 0 100 1 1025 1 0 0 1 (178 / 1000) 0 0 0 0 0 1000)
  = 100 + Spec.delta_m (178 / 1000) 1 (Spec.delta_u 1 0 0 0 0) 1.
Proof.
  assert (H : vel 1 0 0 <> 0) by (apply vel_neq_0; lra).
  split; [exact H | ].
  apply (entrainment_closure
           1 0 100 1 1025 1 0 0 1 (178 / 1000) 0 0 0 0 0 1000 H).
Defined.

(** C6. When the new mass is not zero, the returned density, tracer and
    horizontal velocity are the mass-weighted mixtures of the jet and of the
    entrained ambient fluid, the latter carrying no tracer; the entrained
    mass is the [Delta m] of the specification's entrainment formula. *)
Theorem inmixing
  (dt t m c rho u v w h b x y z ua va rho_a : R) :
  let s := pipe_discharge_single_timestep
             dt t m c rho u v w h b x y z ua va rho_a in
  let Dm := Spec.delta_m b h (Spec.delta_u u v w ua va) dt in
  m + Dm <> 0 ->
  st_m s = m + Dm /\
  st_rho s = (m * rho + Dm * rho_a) / st_m s /\
  st_c s = m * c / st_m s /\
  st_u s = (m * u + Dm * ua) / st_m s /\
  st_v s = (m * v + Dm * va) / st_m s /\
  st_rho s = Spec.new_density m rho Dm rho_a /\
  st_c s = Spec.new_tracer m c Dm /\
  st_u s = Spec.new_horizontal m u Dm ua /\
  st_v s = Spec.new_horizontal m v Dm va.
Proof.
  intros s Dm _. repeat split.
Qed.

(** The sample state in an ambient that moves as the jet does: no mass is
    entrained. *)
Lemma no_shear_sample_dm : dm 1 1 0 0 1 (178 / 1000) 1 0 = 0.
Proof.
  assert (Hv : vel 1 0 0 <> 0) by (apply vel_neq_0; lra).
  change (dm 1 1 0 0 1 (178 / 1000) 1 0)
    with (2 * PI * @alpha_s R _ * (178 / 1000) * 1 * delta_u 1 0 0 1 0 * 1).
  rewrite (delta_u_no_shear 1 0 Hv). ring.
Qed.

(** *** A still ambient *)

(** In a still ambient the velocity difference is the jet speed. *)
Lemma delta_u_still (u v w : R) : delta_u u v w 0 0 = vel u v w.
Proof.
  change (delta_u u v w 0 0)
    with (vel u v w - (0 * u + 0 * v + 0 * w) / vel u v w).
  unfold Rdiv. ring.
Qed.

(** *** Steady state *)

Lemma vel_1_0_0 : vel 1 0 0 = 1.
Proof.
  unfold_step. replace (1 * 1 + 0 * 0 + 0 * 0) with 1 by ring. apply sqrt_1.
Qed.

Lemma vel_0_0_1 : vel 0 0 1 = 1.
Proof.
  unfold_step. replace (0 * 0 + 0 * 0 + 1 * 1) with 1 by ring. apply sqrt_1.
Qed.

(** C2, as stated, fails: a jet rising at speed [1] through an ambient that
    has the jet's horizontal velocity [(0, 0)] and the jet's density entrains,
    because the ambient vertical velocity is [0] and not the jet's; the
    returned mass is larger than the mass given. *)
Lemma steady_state_counterexample :
  0 < 1 /\ vel 0 0 1 <> 0 /\
  1 < st_m (pipe_discharge_single_timestep
              1 0 1 1 1000 0 0 1 1 1 0 0 0 0 0 1000) /\
  ~ steady 1 0 1 1 1000 0 0 1 1 1 0 0 0 0 0 1000.
Proof.
  assert (Hm : 1 < st_m (pipe_discharge_single_timestep
                           1 0 1 1 1000 0 0 1 1 1 0 0 0 0 0 1000)).
  { unfold pipe_discharge_single_timestep. cbn [st_m].
    change (1 < 1 + 2 * PI * @alpha_s R _ * 1 * 1 * delta_u 0 0 1 0 0 * 1).
    rewrite delta_u_still, vel_0_0_1.
    pose proof PI_RGT_0 as Hpi. pose proof alpha_s_pos as Ha.
    generalize dependent (@alpha_s R _). intros a Ha.
    assert (0 < PI * a) by (apply Rmult_lt_0_compat; assumption).
    lra. }
  repeat split.
  - lra.
  - rewrite vel_0_0_1. lra.
  - exact Hm.
  - intros (E & _). cbv zeta in E. rewrite E in Hm. lra.
Qed.

(** *** The step has no guard *)

Lemma sqrt_2_gt_1 : 1 < sqrt 2.
Proof. rewrite <- sqrt_1 at 1. apply sqrt_lt_1; lra. Qed.

Lemma alpha_s_lower : 57 / 1000 < @alpha_s R _.
Proof. unfold_step. pose proof sqrt_2_gt_1. lra. Qed.

Lemma PI_gt_3 : 3 < PI.
Proof. pose proof PI2_3_2. lra. Qed.

(** A jet of mass [1] moving at speed [1] along [x] in an ambient that runs
    at [101] the same way: the ambient outruns the jet, [delta_u = -100], and
    the mass taken away exceeds the mass of the jet. *)
Lemma outrun_sample_mass : 1 + dm 1 1 0 0 1 1 101 0 < 0.
Proof.
  change (dm 1 1 0 0 1 1 101 0)
    with (2 * PI * @alpha_s R _ * 1 * 1
          * (vel 1 0 0 - (101 * 1 + 0 * 0 + 0 * 0) / vel 1 0 0) * 1).
  rewrite vel_1_0_0.
  pose proof PI_gt_3 as Hpi. pose proof alpha_s_lower as Ha.
  generalize dependent (@alpha_s R _). intros a Ha.
  assert (3 * (57 / 1000) < PI * a) by nra.
  lra.
Qed.

(** C3, as stated, fails: from a valid state, the step returns a state whose
    mass is negative. *)
Lemma mass_guard_counterexample :
  0 < 1 /\ vel 1 0 0 = 1 /\
  st_m (pipe_discharge_single_timestep
          1 0 1 1 1025 1 0 0 1 1 0 0 0 101 0 1000) < 0.
Proof.
  split; [lra | split; [apply vel_1_0_0 | ]].
  apply outrun_sample_mass.
Qed.

(** C3, amended.  The step does not check the new mass: when [m + dm <= 0]
    it still returns a state, whose mass is that non-positive [m + dm]. *)
Theorem mass_not_guarded
  (dt t m c rho u v w h b x y z ua va rho_a : R) :
  m + dm dt u v w h b ua va <= 0 ->
  let s := pipe_discharge_single_timestep
             dt t m c rho u v w h b x y z ua va rho_a in
  st_m s = m + dm dt u v w h b ua va /\ st_m s <= 0.
Proof.
  intros H s. split; [reflexivity | exact H].
Qed.

Lemma mass_not_guarded_witness :
  let s := pipe_discharge_single_timestep
             1 0 1 1 1025 1 0 0 1 1 0 0 0 101 0 1000 in
  1 + dm 1 1 0 0 1 1 101 0 <= 0 /\
  st_m s = 1 + dm 1 1 0 0 1 1 101 0 /\ st_m s <= 0.
Proof.
  assert (H : 1 + dm 1 1 0 0 1 1 101 0 <= 0)
    by (apply Rlt_le, outrun_sample_mass).
  split; [exact H | ].
  apply (mass_not_guarded 1 0 1 1 1025 1 0 0 1 1 0 0 0 101 0 1000 H).
Defined.

(** *** The vertical velocity *)

(** What the step returns as vertical velocity is the vertical momentum: the
    specification's [new_w] times the new mass. *)
Lemma returned_w_is_momentum
  (dt t m c rho u v w h b x y z ua va rho_a : R) :
  let s := pipe_discharge_single_timestep
             dt t m c rho u v w h b x y z ua va rho_a in
  st_m s <> 0 ->
  st_w s = st_m s * Spec.new_w m w (st_m s) (st_rho s) rho_a dt.
Proof.
  intros s H. subst s. revert H. unfold pipe_discharge_single_timestep.
  cbn [st_m st_w st_rho]. unfold w_new, Spec.new_w, Spec.g, g.
  generalize (m_new dt m u v w h b ua va).
  generalize (rho_new dt m rho u v w h b ua va rho_a).
  intros r M HM. cbn [add sub mul div lit_9_81 Arith_R].
  generalize ((r - rho_a) / r). intros k. field. exact HM.
Qed.

(** C1 fails on the code.  A jet of mass [2] and density [1000] moving with
    an ambient of density [500]: nothing is entrained, the new mass is [2],
    and the returned vertical velocity is [9.81], twice the [4.905] of the
    specification's formula. *)
Theorem vertical_velocity_not_renormalized :
  let s := pipe_discharge_single_timestep
             1 0 2 1 1000 1 0 0 1 1 0 0 0 1 0 500 in
  st_m s = 2 /\ st_rho s = 1000 /\
  st_w s = 981 / 100 /\
  Spec.new_w 2 0 (st_m s) (st_rho s) 500 1 = 981 / 200.
Proof.
  assert (Hv : vel 1 0 0 <> 0) by (rewrite vel_1_0_0; lra).
  assert (Hd : dm 1 1 0 0 1 1 1 0 = 0).
  { change (dm 1 1 0 0 1 1 1 0)
      with (2 * PI * @alpha_s R _ * 1 * 1 * delta_u 1 0 0 1 0 * 1).
    rewrite (delta_u_no_shear 1 0 Hv). ring. }
  assert (HM : m_new 1 2 1 0 0 1 1 1 0 = 2).
  { change (m_new 1 2 1 0 0 1 1 1 0) with (2 + dm 1 1 0 0 1 1 1 0).
    rewrite Hd. ring. }
  assert (Hrho : rho_new 1 2 1000 1 0 0 1 1 1 0 500 = 1000).
  { change (rho_new 1 2 1000 1 0 0 1 1 1 0 500)
      with ((2 * 1000 + dm 1 1 0 0 1 1 1 0 * 500) / m_new 1 2 1 0 0 1 1 1 0).
    rewrite Hd, HM. field. }
  cbv zeta. unfold pipe_discharge_single_timestep.
  cbn [st_m st_rho st_w]. rewrite HM, Hrho.
  repeat split.
  - change (w_new 1 2 1000 1 0 0 1 1 1 0 500)
      with (2 * 0 + m_new 1 2 1 0 0 1 1 1 0
                    * ((rho_new 1 2 1000 1 0 0 1 1 1 0 500 - 500)
                       / rho_new 1 2 1000 1 0 0 1 1 1 0 500)
                    * (981 / 100) * 1).
    rewrite HM, Hrho. field.
  - unfold Spec.new_w, Spec.g. field.
Qed.

(** *** The sample step *)

Lemma PI_upper : PI < 31416 / 10000.
Proof.
  pose proof (PI_2_3_7_ineq 2) as [_ H].
  unfold sum_f_R0, tg_alt, PI_2_3_7_tg, Ratan_seq in H. simpl in H. lra.
Qed.

Lemma PI_lower : 314159 / 100000 < PI.
Proof.
  pose proof (PI_2_3_7_ineq 2) as [H _].
  unfold sum_f_R0, tg_alt, PI_2_3_7_tg, Ratan_seq in H. simpl in H. lra.
Qed.

Lemma sqrt_2_lower : 141421 / 100000 < sqrt 2.
Proof.
  apply Rsqr_incrst_0; [ | lra | apply sqrt_pos].
  rewrite Rsqr_sqrt by lra. unfold Rsqr. lra.
Qed.

Lemma sqrt_2_upper : sqrt 2 < 141422 / 100000.
Proof.
  apply Rsqr_incrst_0; [ | apply sqrt_pos | lra].
  rewrite Rsqr_sqrt by lra. unfold Rsqr. lra.
Qed.

(** The mass entrained in the sample step. *)
Lemma sample_dm :
  dm 1 1 0 0 1 (178 / 1000) 0 0
  = 2 * PI * (sqrt 2 * (57 / 1000)) * (178 / 1000) * 1 * 1 * 1.
Proof.
  change (dm 1 1 0 0 1 (178 / 1000) 0 0)
    with (2 * PI * (sqrt 2 * (57 / 1000)) * (178 / 1000) * 1
          * delta_u 1 0 0 0 0 * 1).
  rewrite delta_u_still, vel_1_0_0. reflexivity.
Qed.

Lemma sample_dm_bounds :
  9015 / 100000 < dm 1 1 0 0 1 (178 / 1000) 0 0 < 9016 / 100000.
Proof.
  rewrite sample_dm.
  pose proof PI_lower. pose proof PI_upper.
  pose proof sqrt_2_lower. pose proof sqrt_2_upper.
  assert (314159 / 100000 * (141421 / 100000) < PI * sqrt 2) by nra.
  assert (PI * sqrt 2 < 31416 / 10000 * (141422 / 100000)) by nra.
  lra.
Qed.

(** C8. From mass [100], density [1025], velocity [(1, 0, 0)], thickness [1]
    and radius [0.178], in a still ambient of density [1000] and with
    [dt = 1], the step entrains [2 pi (sqrt 2 * 0.057) 0.178], which is
    [0.0902] to four decimals, returns the mass [100.09] to two decimals and
    a density strictly between [1000] and [1025], nearer to [1025]. *)
Theorem sample_step (t c x y z : R) :
  let s := pipe_discharge_single_timestep
             1 t 100 c 1025 1 0 0 1 (178 / 1000) x y z 0 0 1000 in
  let Dm := dm 1 1 0 0 1 (178 / 1000) 0 0 in
  Dm = 2 * PI * (sqrt 2 * (57 / 1000)) * (178 / 1000) * 1 * 1 * 1 /\
  Rabs (Dm - 902 / 10000) < 5 / 100000 /\
  st_m s = 100 + Dm /\
  Rabs (st_m s - 10009 / 100) < 5 / 1000 /\
  1000 < st_rho s < 1025 /\
  1025 - st_rho s < st_rho s - 1000.
Proof.
  intros s Dm. pose proof sample_dm_bounds as [Hlo Hhi].
  fold Dm in Hlo, Hhi.
  assert (Hm : st_m s = 100 + Dm) by reflexivity.
  assert (Hrho : st_rho s * (100 + Dm) = 100 * 1025 + Dm * 1000).
  { change (st_rho s) with ((100 * 1025 + Dm * 1000) / (100 + Dm)).
    field. lra. }
  split; [apply sample_dm | ].
  split; [apply Rabs_def1; lra | ].
  split; [exact Hm | ].
  split; [rewrite Hm; apply Rabs_def1; lra | ].
  generalize dependent (st_rho s). intros r Hr.
  repeat split; nra.
Qed.

(** The sample step entrains: its density, tracer and velocity are strictly
    below those of the jet. *)
Lemma inmixing_witness :
  let s := pipe_discharge_single_timestep
             1 0 100 1 1025 1 0 0 1 (178 / 1000) 0 0 0 0 0 1000 in
  let Dm := Spec.delta_m (178 / 1000) 1 (Spec.delta_u 1 0 0 0 0) 1 in
  100 + Dm <> 0 /\ 0 < Dm /\
  st_m s = 100 + Dm /\
  st_rho s = (100 * 1025 + Dm * 1000) / (100 + Dm) /\
  st_c s = 100 * 1 / (100 + Dm) /\
  st_u s = (100 * 1 + Dm * 0) / (100 + Dm) /\
  st_v s = (100 * 0 + Dm * 0) / (100 + Dm) /\
  st_rho s < 1025 /\ st_c s < 1 /\ st_u s < 1.
Proof.
  intros s Dm. pose proof sample_dm_bounds as [Hlo _].
  change (dm 1 1 0 0 1 (178 / 1000) 0 0) with Dm in Hlo.
  assert (HD : 0 < Dm) by lra.
  assert (Hm : 100 + Dm <> 0) by lra.
  destruct (inmixing 1 0 100 1 1025 1 0 0 1 (178 / 1000) 0 0 0 0 0 1000 Hm)
    as (Em & Erho & Ec & Eu & Ev & _).
  fold s in Em, Erho, Ec, Eu, Ev. fold Dm in Em, Erho, Ec, Eu, Ev.
  rewrite Em in Erho, Ec, Eu, Ev.
  split; [exact Hm | ]. split; [exact HD | ]. split; [exact Em | ].
  split; [exact Erho | ]. split; [exact Ec | ]. split; [exact Eu | ].
  split; [exact Ev | ].
  assert (Q : forall n, n / (100 + Dm) * (100 + Dm) = n)
    by (intros n; field; exact Hm).
  rewrite Erho, Ec, Eu.
  pose proof (Q (100 * 1025 + Dm * 1000)) as Q1.
  pose proof (Q (100 * 1)) as Q2.
  pose proof (Q (100 * 1 + Dm * 0)) as Q3.
  generalize dependent ((100 * 1025 + Dm * 1000) / (100 + Dm)).
  generalize dependent (100 * 1 / (100 + Dm)).
  generalize dependent ((100 * 1 + Dm * 0) / (100 + Dm)).
  intros r3 _ Q3 r2 _ Q2 r1 _ Q1.
  repeat split; nra.
Defined.

End JetReal.

(** ** The returned dataset *)

Module JetDataset.
Import Jet Driver.

(** C10. [pipe_discharge] returns a dataset whose [time] coordinate and
    [density] variable hold no value, and [jet] returns that same dataset
    whatever its two arguments are; in particular the states of a run do not
    enter it. *)
Theorem pipe_discharge_empty (V : Type) :
  dict_get "time" (coords (@pipe_discharge V))
  = Some (mk_Variable "time" [] []) /\
  dict_get "density" (data_vars (@pipe_discharge V))
  = Some (mk_Variable "time" [] []) /\
  (forall (k : string) (x : xr_Variable V),
      dict_get k (coords (@pipe_discharge V)) = Some x \/
      dict_get k (data_vars (@pipe_discharge V)) = Some x ->
      List.length (data x) = 0%nat) /\
  (forall (T D : Type) (time : T) (density : D),
      jet time density = @pipe_discharge V) /\
  (forall (dt : R) (s : state R) (samples : list (ambient R)),
      let run := trajectory dt s samples in
      jet (map st_t run) (map st_rho run) = @pipe_discharge V).
Proof.
  repeat split.
  intros k x [H | H]; cbn in H;
    destruct (String.eqb k _); inversion H; reflexivity.
Qed.

End JetDataset.

(** ** The step in binary64 *)

Module JetFloat.
Import Jet IEEE.
Local Open Scope float_scope.
#[local] Set Warnings "-inexact-float".

Ltac sf_cases a b Ha Hb :=
  destruct a, b; cbn in Ha, Hb; try discriminate; reflexivity.

Lemma SFmul_zero a b :
  SFis_zero a = true -> SFis_zero b = true -> SFis_zero (SF64mul a b) = true.
Proof. intros Ha Hb. sf_cases a b Ha Hb. Qed.

Lemma SFadd_zero a b :
  SFis_zero a = true -> SFis_zero b = true -> SFis_zero (SF64add a b) = true.
Proof.
  intros Ha Hb. destruct a as [[|]| | |], b as [[|]| | |];
    cbn in Ha, Hb; try discriminate; reflexivity.
Qed.

Lemma SFsqrt_zero a : SFis_zero a = true -> SFis_zero (SF64sqrt a) = true.
Proof. intros Ha. destruct a; cbn in Ha; try discriminate; reflexivity. Qed.

Lemma Prim2SF_zero : Prim2SF 0 = S754_zero false.
Proof. reflexivity. Qed.

Lemma is_zero_spec x : SFis_zero (Prim2SF x) = is_zero x.
Proof.
  unfold is_zero. rewrite FloatAxioms.eqb_spec.
  change (Prim2SF zero) with (S754_zero false).
  destruct (Prim2SF x) as [s|s| |s m e]; try destruct s; reflexivity.
Qed.

Lemma is_nan_spec x : SFis_nan (Prim2SF x) = is_nan x.
Proof.
  unfold Prim2SF. destruct (is_nan x); [reflexivity | ].
  destruct (is_zero x); [reflexivity | ].
  destruct (is_infinity x); [reflexivity | ].
  destruct (Z.frexp x) as [r e]. destruct (shr_fexp _ _ _ _ _) as [shr e'].
  destruct (shr_m shr); reflexivity.
Qed.

Lemma not_finite_spec x :
  SFnot_finite (Prim2SF x) = true -> is_finite x = false.
Proof.
  unfold is_finite, Prim2SF. destruct (is_nan x); [reflexivity | ].
  destruct (is_zero x); [discriminate | ].
  destruct (is_infinity x); [reflexivity | ].
  destruct (Z.frexp x) as [r e]. destruct (shr_fexp _ _ _ _ _) as [shr e'].
  destruct (shr_m shr); discriminate.
Qed.

(** Any operation with a NaN operand is a NaN. *)
Lemma SFadd_nan_l a b : SFis_nan a = true -> SFis_nan (SF64add a b) = true.
Proof. intros Ha. destruct a; cbn in Ha; try discriminate; reflexivity. Qed.
Lemma SFadd_nan_r a b : SFis_nan b = true -> SFis_nan (SF64add a b) = true.
Proof.
  intros Hb. destruct b; cbn in Hb; try discriminate. destruct a; reflexivity.
Qed.
Lemma SFsub_nan_l a b : SFis_nan a = true -> SFis_nan (SF64sub a b) = true.
Proof. intros Ha. destruct a; cbn in Ha; try discriminate; reflexivity. Qed.
Lemma SFsub_nan_r a b : SFis_nan b = true -> SFis_nan (SF64sub a b) = true.
Proof.
  intros Hb. destruct b; cbn in Hb; try discriminate. destruct a; reflexivity.
Qed.
Lemma SFmul_nan_l a b : SFis_nan a = true -> SFis_nan (SF64mul a b) = true.
Proof. intros Ha. destruct a; cbn in Ha; try discriminate; reflexivity. Qed.
Lemma SFmul_nan_r a b : SFis_nan b = true -> SFis_nan (SF64mul a b) = true.
Proof.
  intros Hb. destruct b; cbn in Hb; try discriminate. destruct a; reflexivity.
Qed.
Lemma SFdiv_nan_l a b : SFis_nan a = true -> SFis_nan (SF64div a b) = true.
Proof. intros Ha. destruct a; cbn in Ha; try discriminate; reflexivity. Qed.
Lemma SFdiv_nan_r a b : SFis_nan b = true -> SFis_nan (SF64div a b) = true.
Proof.
  intros Hb. destruct b; cbn in Hb; try discriminate. destruct a; reflexivity.
Qed.
Lemma SFsqrt_nan a : SFis_nan a = true -> SFis_nan (SF64sqrt a) = true.
Proof. intros Ha. destruct a; cbn in Ha; try discriminate; reflexivity. Qed.

Lemma SFmul_by_zero a b :
  SFis_zero b = true -> SFzero_or_nan (SF64mul a b) = true.
Proof.
  intros Hb. destruct b; cbn in Hb; try discriminate. destruct a; reflexivity.
Qed.

Lemma SFadd_zero_or_nan a b :
  SFzero_or_nan a = true -> SFzero_or_nan b = true ->
  SFzero_or_nan (SF64add a b) = true.
Proof.
  intros Ha Hb. destruct a as [[|]| | |], b as [[|]| | |];
    cbn in Ha, Hb; try discriminate; reflexivity.
Qed.

Lemma SFdiv_zero_or_nan_by_zero a b :
  SFzero_or_nan a = true -> SFis_zero b = true ->
  SFis_nan (SF64div a b) = true.
Proof. intros Ha Hb. sf_cases a b Ha Hb. Qed.

Lemma SFdiv_by_zero a b :
  SFis_zero b = true -> SFnot_finite (SF64div a b) = true.
Proof.
  intros Hb. destruct b; cbn in Hb; try discriminate. destruct a; reflexivity.
Qed.

Lemma SFsub_not_finite_r a b :
  SFnot_finite b = true -> SFnot_finite (SF64sub a b) = true.
Proof.
  intros Hb. destruct a as [[|]|[|]| | ], b as [ |[|]| | ];
    cbn in Hb; try discriminate; reflexivity.
Qed.

Lemma SFmul_not_finite_l a b :
  SFnot_finite a = true -> SFnot_finite (SF64mul a b) = true.
Proof.
  intros Ha. destruct a, b; cbn in Ha; try discriminate; reflexivity.
Qed.

Lemma SFmul_not_finite_r a b :
  SFnot_finite b = true -> SFnot_finite (SF64mul a b) = true.
Proof.
  intros Hb. destruct a, b; cbn in Hb; try discriminate; reflexivity.
Qed.

Lemma SFadd_not_finite_r a b :
  SFnot_finite b = true -> SFnot_finite (SF64add a b) = true.
Proof.
  intros Hb. destruct a as [[|]|[|]| | ], b as [ |[|]| | ];
    cbn in Hb; try discriminate; reflexivity.
Qed.

(** *** NaN through the operations of binary64 *)

Create HintDb nan.

Ltac to_spec :=
  rewrite <- ?is_nan_spec, <- ?is_zero_spec in *;
  repeat first [ rewrite add_spec | rewrite sub_spec | rewrite mul_spec
               | rewrite div_spec | rewrite sqrt_spec ].

Lemma add_nan_l x y : is_nan x = true -> is_nan (x + y) = true.
Proof. to_spec. apply SFadd_nan_l. Qed.
Lemma add_nan_r x y : is_nan y = true -> is_nan (x + y) = true.
Proof. to_spec. apply SFadd_nan_r. Qed.
Lemma sub_nan_l x y : is_nan x = true -> is_nan (x - y) = true.
Proof. to_spec. apply SFsub_nan_l. Qed.
Lemma sub_nan_r x y : is_nan y = true -> is_nan (x - y) = true.
Proof. to_spec. apply SFsub_nan_r. Qed.
Lemma mul_nan_l x y : is_nan x = true -> is_nan (x * y) = true.
Proof. to_spec. apply SFmul_nan_l. Qed.
Lemma mul_nan_r x y : is_nan y = true -> is_nan (x * y) = true.
Proof. to_spec. apply SFmul_nan_r. Qed.
Lemma div_nan_l x y : is_nan x = true -> is_nan (x / y) = true.
Proof. to_spec. apply SFdiv_nan_l. Qed.
Lemma div_nan_r x y : is_nan y = true -> is_nan (x / y) = true.
Proof. to_spec. apply SFdiv_nan_r. Qed.
Lemma sqrt_nan x : is_nan x = true -> is_nan (PrimFloat.sqrt x) = true.
Proof. to_spec. apply SFsqrt_nan. Qed.

#[local] Hint Resolve add_nan_l add_nan_r sub_nan_l sub_nan_r
  mul_nan_l mul_nan_r div_nan_l div_nan_r sqrt_nan : nan.

(** Unfolds the body of the step down to the operations of binary64. *)
Ltac unfold_step :=
  unfold pipe_discharge_single_timestep, z_new, y_new, x_new, b_new,
    h_new, vel_new, w_new, v_new, u_new, c_new, rho_new, m_new, dm, delta_u,
    vel, alpha_s, t_new, g, wa, np_dot, np_dot_from;
  cbn [st_t st_m st_c st_rho st_u st_v st_w st_h st_b st_x st_y st_z];
  cbn [add sub mul div np_sqrt np_pi lit_0 lit_2 lit_0_057 lit_9_81
       Arith_float].

(** *** A jet at rest *)

Lemma vel_at_rest (u v w : float) :
  is_zero u = true -> is_zero v = true -> is_zero w = true ->
  is_zero (vel u v w) = true.
Proof.
  intros Hu Hv Hw. unfold_step. to_spec.
  apply SFsqrt_zero; repeat apply SFadd_zero; apply SFmul_zero; assumption.
Qed.

Lemma delta_u_at_rest (u v w ua va : float) :
  is_zero u = true -> is_zero v = true -> is_zero w = true ->
  is_nan (delta_u u v w ua va) = true.
Proof.
  intros Hu Hv Hw. pose proof (vel_at_rest u v w Hu Hv Hw) as Hvel.
  change (delta_u u v w ua va)
    with (vel u v w - (ua * u + va * v + 0 * w) / vel u v w).
  apply sub_nan_r. revert Hvel. generalize (vel u v w). intros s Hs.
  to_spec. apply SFdiv_zero_or_nan_by_zero; [ | assumption].
  repeat apply SFadd_zero_or_nan; apply SFmul_by_zero; assumption.
Qed.

Lemma m_new_at_rest (dt m u v w h b ua va : float) :
  is_zero u = true -> is_zero v = true -> is_zero w = true ->
  is_nan (m_new dt m u v w h b ua va) = true.
Proof.
  intros Hu Hv Hw. pose proof (delta_u_at_rest u v w ua va Hu Hv Hw) as Hd.
  unfold m_new, dm. revert Hd. generalize (delta_u u v w ua va). intros d Hd.
  cbn [add mul Arith_float]. auto with nan.
Qed.

Ltac nan_field :=
  unfold z_new, y_new, x_new, b_new, h_new, vel_new, w_new, v_new, u_new,
    c_new, rho_new;
  cbn [add sub mul div np_sqrt Arith_float]; auto 8 with nan.

(** C4, amended.  From a state whose three velocity components are zero the
    step raises nothing: the speed is zero, the quotient by it is a NaN, and
    the step returns a state in which the mass and every other entry but the
    time is a NaN. *)
Theorem at_rest_returns_nan
  (dt t m c rho u v w h b x y z ua va rho_a : float) :
  is_zero u = true -> is_zero v = true -> is_zero w = true ->
  let s := pipe_discharge_single_timestep
             dt t m c rho u v w h b x y z ua va rho_a in
  is_zero (vel u v w) = true /\
  is_nan (st_m s) = true /\ is_nan (st_c s) = true /\
  is_nan (st_rho s) = true /\
  is_nan (st_u s) = true /\ is_nan (st_v s) = true /\
  is_nan (st_w s) = true /\
  is_nan (st_h s) = true /\ is_nan (st_b s) = true /\
  is_nan (st_x s) = true /\ is_nan (st_y s) = true /\
  is_nan (st_z s) = true.
Proof.
  intros Hu Hv Hw s. subst s.
  unfold pipe_discharge_single_timestep.
  cbn [st_m st_c st_rho st_u st_v st_w st_h st_b st_x st_y st_z].
  pose proof (m_new_at_rest dt m u v w h b ua va Hu Hv Hw) as Hm.
  assert (Hc : is_nan (c_new dt m c u v w h b ua va) = true)
    by nan_field.
  assert (Hrho : is_nan (rho_new dt m rho u v w h b ua va rho_a) = true)
    by nan_field.
  assert (Hun : is_nan (u_new dt m u v w h b ua va) = true)
    by nan_field.
  assert (Hvn : is_nan (v_new dt m u v w h b ua va) = true)
    by nan_field.
  assert (Hwn : is_nan (w_new dt m rho u v w h b ua va rho_a) = true)
    by nan_field.
  assert (Hvel : is_nan (vel_new dt m rho u v w h b ua va rho_a) = true)
    by nan_field.
  assert (Hh : is_nan (h_new dt m rho u v w h b ua va rho_a) = true)
    by nan_field.
  repeat split; try assumption.
  - apply vel_at_rest; assumption.
  - nan_field.
  - nan_field.
  - nan_field.
  - nan_field.
Qed.

Lemma at_rest_returns_nan_witness :
  let s := pipe_discharge_single_timestep
             1 0 100 1 1025 0 0 0 1 0.178 0 0 0 0 0 1000 in
  is_zero 0 = true /\
  is_zero (vel 0 0 0) = true /\
  is_nan (st_m s) = true /\ is_nan (st_c s) = true /\
  is_nan (st_rho s) = true /\
  is_nan (st_u s) = true /\ is_nan (st_v s) = true /\
  is_nan (st_w s) = true /\
  is_nan (st_h s) = true /\ is_nan (st_b s) = true /\
  is_nan (st_x s) = true /\ is_nan (st_y s) = true /\
  is_nan (st_z s) = true.
Proof.
  split; [reflexivity | ].
  apply (at_rest_returns_nan 1 0 100 1 1025 0 0 0 1 0.178 0 0 0 0 0 1000);
    reflexivity.
Defined.

(** C4, as stated, fails: the sample state with its velocity set to zero is
    stepped without an error, and the state returned holds NaN. *)
Lemma at_rest_counterexample :
  let s := pipe_discharge_single_timestep
             1 0 100 1 1025 0 0 0 1 0.178 0 0 0 0 0 1000 in
  vel 0 0 0 = 0 /\
  st_t s = 1 /\ st_m s = nan /\ st_c s = nan /\ st_rho s = nan /\
  st_u s = nan /\ st_v s = nan /\ st_w s = nan /\
  st_h s = nan /\ st_b s = nan /\
  st_x s = nan /\ st_y s = nan /\ st_z s = nan.
Proof. vm_compute. repeat split. Qed.

(** A speed that is zero, also by underflow of the squares, leaves a mass
    that is a NaN or an infinity. *)
Lemma zero_speed_mass_not_finite (dt m u v w h b ua va : float) :
  is_zero (vel u v w) = true ->
  is_finite (m_new dt m u v w h b ua va) = false.
Proof.
  intros Hvel. apply not_finite_spec.
  unfold m_new, dm, delta_u. revert Hvel. generalize (vel u v w).
  intros s Hs. cbn [add sub mul div Arith_float]. to_spec.
  apply SFadd_not_finite_r, SFmul_not_finite_l, SFmul_not_finite_r.
  apply SFsub_not_finite_r, SFdiv_by_zero. assumption.
Qed.

(** *** The steps of the real-number development, in binary64 *)

(** The step that returns a negative mass. *)
Example outrun_sample_float :
  let s := pipe_discharge_single_timestep
             1 0 1 1 1025 1 0 0 1 1 0 0 0 101 0 1000 in
  (st_m s <? -49) = true /\ is_nan (st_b s) = true.
Proof. vm_compute. split; reflexivity. Qed.

(** The step whose vertical velocity is not divided by the new mass. *)
Example vertical_velocity_float :
  let s := pipe_discharge_single_timestep
             1 0 2 1 1000 1 0 0 1 1 0 0 0 1 0 500 in
  st_m s = 2 /\ st_rho s = 1000 /\ st_w s = 9.81 /\
  st_w s / st_m s = 4.905.
Proof. vm_compute. repeat split. Qed.

(** The sample step. *)
Example sample_step_float :
  let s := pipe_discharge_single_timestep
             1 0 100 1 1025 1 0 0 1 0.178 0 0 0 0 0 1000 in
  dm 1 1 0 0 1 0.178 0 0 = 0.090154980581109573 /\
  st_m s = 100.0901549805811 /\
  st_rho s = 1024.9774815563533 /\
  st_w s = 23.927354933457298.
Proof. vm_compute. repeat split. Qed.

End JetFloat.

(** ** NaN through the step, in binary64 *)

Module JetFloatNaN.
Import Jet.
Local Open Scope float_scope.
#[local] Set Warnings "-inexact-float".

#[local] Hint Resolve JetFloat.add_nan_l JetFloat.add_nan_r
  JetFloat.sub_nan_l JetFloat.sub_nan_r JetFloat.mul_nan_l JetFloat.mul_nan_r
  JetFloat.div_nan_l JetFloat.div_nan_r JetFloat.sqrt_nan : nan.

Ltac nan_through :=
  unfold z_new, y_new, x_new, b_new, h_new, vel_new, w_new, v_new, u_new,
    c_new, rho_new;
  cbn [add sub mul div np_sqrt Arith_float]; auto 8 with nan.

(** A NaN in the mass, the velocity, the thickness or the radius reaches the
    new mass. *)
Lemma m_new_nan (dt m u v w h b ua va : float) :
  is_nan m = true \/ is_nan u = true \/ is_nan v = true \/ is_nan w = true \/
  is_nan h = true \/ is_nan b = true ->
  is_nan (m_new dt m u v w h b ua va) = true.
Proof.
  unfold m_new, dm, delta_u, vel, np_dot, np_dot_from.
  cbn [add sub mul div np_sqrt Arith_float].
  intros [H | [H | [H | [H | [H | H]]]]]; auto 12 with nan.
Qed.

(** X7. When the mass, a velocity component, the thickness or the radius
    given to the step is a NaN, every entry of the returned state but the
    time is a NaN. *)
Theorem nan_spreads
  (dt t m c rho u v w h b x y z ua va rho_a : float) :
  is_nan m = true \/ is_nan u = true \/ is_nan v = true \/ is_nan w = true \/
  is_nan h = true \/ is_nan b = true ->
  let s := pipe_discharge_single_timestep
             dt t m c rho u v w h b x y z ua va rho_a in
  is_nan (st_m s) = true /\ is_nan (st_c s) = true /\
  is_nan (st_rho s) = true /\
  is_nan (st_u s) = true /\ is_nan (st_v s) = true /\
  is_nan (st_w s) = true /\
  is_nan (st_h s) = true /\ is_nan (st_b s) = true /\
  is_nan (st_x s) = true /\ is_nan (st_y s) = true /\
  is_nan (st_z s) = true.
Proof.
  intros Hin s. subst s.
  unfold pipe_discharge_single_timestep.
  cbn [st_m st_c st_rho st_u st_v st_w st_h st_b st_x st_y st_z].
  pose proof (m_new_nan dt m u v w h b ua va Hin) as Hm. clear Hin.
  assert (Hun : is_nan (u_new dt m u v w h b ua va) = true) by nan_through.
  assert (Hvn : is_nan (v_new dt m u v w h b ua va) = true) by nan_through.
  assert (Hwn : is_nan (w_new dt m rho u v w h b ua va rho_a) = true)
    by nan_through.
  repeat split; try assumption; nan_through.
Qed.

Lemma nan_spreads_witness :
  let s := pipe_discharge_single_timestep
             1 0 nan 1 1025 1 0 0 1 0.178 0 0 0 0 0 1000 in
  is_nan nan = true /\
  is_nan (st_m s) = true /\ is_nan (st_c s) = true /\
  is_nan (st_rho s) = true /\
  is_nan (st_u s) = true /\ is_nan (st_v s) = true /\
  is_nan (st_w s) = true /\
  is_nan (st_h s) = true /\ is_nan (st_b s) = true /\
  is_nan (st_x s) = true /\ is_nan (st_y s) = true /\
  is_nan (st_z s) = true.
Proof.
  split; [reflexivity | ].
  apply (nan_spreads 1 0 nan 1 1025 1 0 0 1 0.178 0 0 0 0 0 1000).
  left. reflexivity.
Defined.

End JetFloatNaN.

(** ** The depth levels and the interpolation indices of [roms.py] *)

Module RomsProps.
Import Roms.
Local Open Scope R_scope.

(** *** [add_zrho] *)

(** X8. [add_zrho] returns depths exactly when [Vtransform] is [1] or [2],
    and raises the [ValueError] that names the value exactly when it is
    neither. *)
Theorem add_zrho_raises (dset : grid_entry) :
  (Vtransform dset = 1%Z \/ Vtransform dset = 2%Z <->
   exists zz, add_zrho dset = Ok zz) /\
  (Vtransform dset <> 1%Z /\ Vtransform dset <> 2%Z <->
   add_zrho dset
   = Raise (ValueError "Unknown Vtransform: " (Vtransform dset))).
Proof.
  unfold add_zrho.
  destruct (Z.eqb_spec (Vtransform dset) 1) as [E1 | N1];
    [ | destruct (Z.eqb_spec (Vtransform dset) 2) as [E2 | N2] ].
  - split; split.
    + intros _. eexists. reflexivity.
    + intros _. left. exact E1.
    + intros [N _]. contradiction.
    + discriminate.
  - split; split.
    + intros _. eexists. reflexivity.
    + intros _. right. exact E2.
    + intros [_ N]. contradiction.
    + discriminate.
  - split; split.
    + intros [E | E]; contradiction.
    + intros [zz E]. discriminate.
    + reflexivity.
    + intros _. split; assumption.
Qed.

(** *** The indices of [interpolate_latlon] *)

Lemma np_clip_within (x a_min a_max : R) :
  a_min <= a_max -> a_min <= np_clip x a_min a_max <= a_max.
Proof.
  intros H. unfold np_clip, Rmin, Rmax.
  destruct (Rle_dec x a_min); destruct (Rle_dec _ a_max); lra.
Qed.

Lemma np_clip_inside (x a_min a_max : R) :
  a_min <= x <= a_max -> np_clip x a_min a_max = x.
Proof.
  intros H. unfold np_clip, Rmin, Rmax.
  destruct (Rle_dec x a_min); destruct (Rle_dec _ a_max); lra.
Qed.

Lemma py_int_within (x : R) (n : Z) :
  1 <= x <= IZR n -> (1 <= py_int x <= n)%Z.
Proof.
  intros [Hlo Hhi]. unfold py_int.
  destruct (Rle_dec 0 x) as [_ | N]; [ | lra].
  destruct (base_Int_part x) as [B1 B2].
  split.
  - assert (0 < IZR (Int_part x)) by lra.
    apply lt_IZR in H. lia.
  - apply le_IZR. lra.
Qed.

(** X14. On a grid of at least two points each way, the indices that
    [interpolate_latlon] hands to the interpolation lie within the grids of
    the rho, u and v points, wherever the position is, and a position inside
    the clipping bounds is kept as it is. *)
Theorem interpolate_latlon_within_grid
  (y x : R) (dim_xi_rho dim_eta_rho : Z) :
  (2 <= dim_xi_rho)%Z -> (2 <= dim_eta_rho)%Z ->
  let c := interpolate_latlon y x dim_xi_rho dim_eta_rho in
  5 / 10 <= xi_rho c <= IZR dim_xi_rho - 15 / 10 /\
  5 / 10 <= eta_rho c <= IZR dim_eta_rho - 15 / 10 /\
  0 <= xi_u c <= IZR dim_xi_rho - 2 /\
  (1 <= eta_u c <= dim_eta_rho - 1)%Z /\
  (1 <= xi_v c <= dim_xi_rho - 1)%Z /\
  0 <= eta_v c <= IZR dim_eta_rho - 2 /\
  (5 / 10 <= x <= IZR dim_xi_rho - 15 / 10 -> xi_rho c = x) /\
  (5 / 10 <= y <= IZR dim_eta_rho - 15 / 10 -> eta_rho c = y).
Proof.
  intros Hx Hy c. subst c. unfold interpolate_latlon.
  cbn [xi_rho eta_rho xi_u eta_u xi_v eta_v].
  apply IZR_le in Hx, Hy.
  pose proof (np_clip_within x (5 / 10) (IZR dim_xi_rho - 15 / 10)
                ltac:(lra)) as Bx.
  pose proof (np_clip_within y (5 / 10) (IZR dim_eta_rho - 15 / 10)
                ltac:(lra)) as By.
  split; [lra | ]. split; [lra | ]. split; [lra | ].
  split; [apply py_int_within; rewrite minus_IZR; lra | ].
  split; [apply py_int_within; rewrite minus_IZR; lra | ].
  split; [lra | ].
  split; apply np_clip_inside.
Qed.

Lemma interpolate_latlon_within_grid_witness :
  let c := interpolate_latlon (-3) (77 / 10) 10 5 in
  (2 <= 10)%Z /\ (2 <= 5)%Z /\
  5 / 10 <= xi_rho c <= IZR 10 - 15 / 10 /\
  5 / 10 <= eta_rho c <= IZR 5 - 15 / 10 /\
  0 <= xi_u c <= IZR 10 - 2 /\
  (1 <= eta_u c <= 5 - 1)%Z /\
  (1 <= xi_v c <= 10 - 1)%Z /\
  0 <= eta_v c <= IZR 5 - 2 /\
  (5 / 10 <= 77 / 10 <= IZR 10 - 15 / 10 -> xi_rho c = 77 / 10) /\
  (5 / 10 <= -3 <= IZR 5 - 15 / 10 -> eta_rho c = -3).
Proof.
  cbv zeta.
  assert (Hx : (2 <= 10)%Z) by lia.
  assert (Hy : (2 <= 5)%Z) by lia.
  split; [exact Hx | split; [exact Hy | ]].
  apply (interpolate_latlon_within_grid (-3) (77 / 10) 10 5 Hx Hy).
Defined.

End RomsProps.

(** ** The step in rounded arithmetic *)

Module JetRounded.
Import Jet Driver Predicates.
Local Open Scope R_scope.

(** Unfolds the body of the step down to the rounded operations of [R]. *)
Ltac unfold_rounded :=
  unfold step, pipe_discharge_single_timestep, z_new, y_new, x_new, b_new,
    h_new, vel_new, w_new, v_new, u_new, c_new, rho_new, m_new, dm, delta_u,
    vel, alpha_s, t_new, g, wa, np_dot, np_dot_from;
  cbn [st_t st_m st_c st_rho st_u st_v st_w st_h st_b st_x st_y st_z
       amb_ua amb_va amb_rho
       add sub mul div np_sqrt np_pi lit_0 lit_2 lit_0_057 lit_9_81
       Arith_rounded].

(** *** Roundings that keep the sign *)

Section sign.
Variable rnd : R -> R.
Hypothesis rnd_0 : rnd 0 = 0.
Hypothesis rnd_nonneg : forall x : R, 0 <= x -> 0 <= rnd x.

Let A : Arith R := Arith_rounded rnd.

Lemma rounded_vel_nonneg (u v w : R) : 0 <= @vel R A u v w.
Proof. unfold_rounded. apply rnd_nonneg, sqrt_pos. Qed.

(** In a still ambient the velocity difference is the rounded jet speed. *)
Lemma rounded_delta_u_still (u v w : R) :
  @delta_u R A u v w 0 0 = rnd (@vel R A u v w - 0).
Proof.
  unfold delta_u, np_dot, np_dot_from, wa.
  cbn [add sub mul div lit_0 Arith_rounded A].
  rewrite !Rmult_0_l, rnd_0, Rplus_0_l, rnd_0, Rplus_0_l, rnd_0.
  unfold Rdiv. rewrite Rmult_0_l, rnd_0. reflexivity.
Qed.

Lemma rounded_delta_u_still_nonneg (u v w : R) : 0 <= @delta_u R A u v w 0 0.
Proof.
  rewrite rounded_delta_u_still. apply rnd_nonneg.
  pose proof (rounded_vel_nonneg u v w). lra.
Qed.

Lemma rounded_dm_nonneg (dt u v w h b ua va : R) :
  0 <= @delta_u R A u v w ua va -> 0 <= b -> 0 <= h -> 0 <= dt ->
  0 <= @dm R A dt u v w h b ua va.
Proof.
  intros Hd Hb Hh Hdt. unfold dm, alpha_s.
  generalize dependent (@delta_u R A u v w ua va). intros d Hd.
  cbn [add sub mul div np_sqrt np_pi lit_2 lit_0_057 Arith_rounded A].
  pose proof PI_RGT_0 as Hpi.
  assert (H2 : 0 <= rnd (2 * rnd PI)).
  { apply rnd_nonneg. assert (0 <= rnd PI) by (apply rnd_nonneg; lra). lra. }
  assert (Ha : 0 <= rnd (rnd (sqrt 2) * rnd (57 / 1000))).
  { apply rnd_nonneg, Rmult_le_pos; apply rnd_nonneg;
      [apply sqrt_pos | lra]. }
  apply rnd_nonneg, Rmult_le_pos; [ | exact Hdt].
  apply rnd_nonneg, Rmult_le_pos; [ | exact Hd].
  apply rnd_nonneg, Rmult_le_pos; [ | exact Hh].
  apply rnd_nonneg, Rmult_le_pos; [ | exact Hb].
  apply rnd_nonneg, Rmult_le_pos; assumption.
Qed.

Lemma b_new_nonneg (dt m rho u v w h b ua va rho_a : R) :
  0 <= @b_new R A dt m rho u v w h b ua va rho_a.
Proof.
  unfold b_new. cbn [np_sqrt Arith_rounded A]. apply rnd_nonneg, sqrt_pos.
Qed.

Lemma h_new_nonneg (dt m rho u v w h b ua va rho_a : R) :
  @vel R A u v w <> 0 -> 0 <= h ->
  0 <= @h_new R A dt m rho u v w h b ua va rho_a.
Proof.
  intros Hv Hh. unfold h_new, vel_new.
  pose proof (rounded_vel_nonneg u v w) as Hp.
  generalize dependent (@vel R A u v w). intros V Hv Hp.
  cbn [mul div np_sqrt Arith_rounded A].
  apply rnd_nonneg, Rmult_le_pos; [ | exact Hh].
  apply rnd_nonneg. unfold Rdiv. apply Rmult_le_pos.
  - apply rnd_nonneg, sqrt_pos.
  - apply Rlt_le, Rinv_0_lt_compat. lra.
Qed.

End sign.

(** *** Mass along a run *)

Lemma trajectory_starts (rnd : R -> R) (dt : R) (s : state R)
  (samples : list (ambient R)) :
  exists l, @trajectory R (Arith_rounded rnd) dt s samples = s :: l.
Proof. destruct samples; simpl; eauto. Qed.

Section monotone.
Variable rnd : R -> R.
Hypothesis Hrnd : Rounding.monotone rnd.

Let A : Arith R := Arith_rounded rnd.

Lemma monotone_0 : rnd 0 = 0.
Proof. apply Hrnd. Qed.

Lemma monotone_nonneg (x : R) : 0 <= x -> 0 <= rnd x.
Proof.
  intros H. rewrite <- monotone_0. apply Hrnd. exact H.
Qed.

Lemma step_mass_le (dt m u v w h b ua va : R) :
  rnd m = m ->
  0 <= @delta_u R A u v w ua va -> 0 <= b -> 0 <= h -> 0 <= dt ->
  m <= @m_new R A dt m u v w h b ua va.
Proof.
  intros Hm Hd Hb Hh Hdt.
  pose proof (rounded_dm_nonneg rnd monotone_nonneg dt u v w h b ua va
                Hd Hb Hh Hdt) as H.
  unfold m_new. fold A in H. generalize dependent (@dm R A dt u v w h b ua va).
  intros D HD. cbn [add Arith_rounded A].
  rewrite <- Hm at 1. apply Hrnd. lra.
Qed.

Lemma step_mass_kept (dt : R) (s : state R) (a : ambient R) :
  rnd (st_m (@step R A dt s a)) = st_m (@step R A dt s a).
Proof.
  unfold step, pipe_discharge_single_timestep, m_new.
  cbn [st_m add Arith_rounded A]. apply Hrnd.
Qed.

Lemma trajectory_sorted (dt : R) :
  0 <= dt ->
  forall (samples : list (ambient R)) (s : state R),
    rnd (st_m s) = st_m s ->
    entraining rnd dt s samples ->
    Sorted mass_le (@trajectory R A dt s samples).
Proof.
  intros Hdt samples. induction samples as [ | a rest IH]; intros s Hs He.
  - simpl. repeat constructor.
  - destruct He as [(Hv & Hd & Hb & Hh) Hrest]. simpl.
    constructor.
    + apply IH; [apply step_mass_kept | exact Hrest].
    + destruct (trajectory_starts rnd dt (@step R A dt s a) rest) as [l E].
      fold A in E. rewrite E. constructor.
      unfold mass_le, step, pipe_discharge_single_timestep. cbn [st_m].
      apply step_mass_le; assumption.
Qed.

End monotone.

(** C7, amended.  In arithmetic that rounds monotonically and returns a
    number from every operation, a step from a representable mass and a
    non-zero speed with [delta_u >= 0], over a non-negative radius, thickness
    and [dt], returns at least the mass it was given; so along a run all of
    whose steps are such, the mass never decreases from one state to the
    next. *)
Theorem mass_nondecreasing (rnd : R -> R) :
  Rounding.monotone rnd ->
  (forall dt t m c rho u v w h b x y z ua va rho_a : R,
      rnd m = m ->
      @vel R (Arith_rounded rnd) u v w <> 0 ->
      0 <= @delta_u R (Arith_rounded rnd) u v w ua va ->
      0 <= b -> 0 <= h -> 0 <= dt ->
      m <= st_m (@pipe_discharge_single_timestep R (Arith_rounded rnd)
                   dt t m c rho u v w h b x y z ua va rho_a))
  /\
  (forall (dt : R) (s : state R) (samples : list (ambient R)),
      0 <= dt -> rnd (st_m s) = st_m s ->
      entraining rnd dt s samples ->
      Sorted mass_le (@trajectory R (Arith_rounded rnd) dt s samples)).
Proof.
  intros Hrnd. split.
  - intros dt t m c rho u v w h b x y z ua va rho_a Hm _ Hd Hb Hh Hdt.
    apply (step_mass_le rnd Hrnd); assumption.
  - intros dt s samples Hdt Hs He.
    apply (trajectory_sorted rnd Hrnd); assumption.
Qed.

(** *** Rounding down to a grid *)

Lemma Int_part_unique (z : Z) (r : R) :
  IZR z <= r < IZR z + 1 -> Int_part r = z.
Proof.
  intros [Hlo Hhi]. destruct (base_Int_part r) as [B1 B2].
  assert (H1 : (z < Int_part r + 1)%Z).
  { apply lt_IZR. rewrite plus_IZR. lra. }
  assert (H2 : (Int_part r < z + 1)%Z).
  { apply lt_IZR. rewrite plus_IZR. lra. }
  lia.
Qed.

Lemma Int_part_le (x y : R) : x <= y -> (Int_part x <= Int_part y)%Z.
Proof.
  intros H. destruct (base_Int_part x) as [X1 X2].
  destruct (base_Int_part y) as [Y1 Y2].
  assert (H1 : (Int_part x < Int_part y + 1)%Z).
  { apply lt_IZR. rewrite plus_IZR. lra. }
  lia.
Qed.

Lemma pow_2_10 : 2 ^ 10 = 1024.
Proof. simpl. ring. Qed.

Lemma to_grid_IZR (z : Z) : Rounding.to_grid (IZR z) = IZR z.
Proof.
  unfold Rounding.to_grid. rewrite pow_2_10.
  rewrite (Int_part_unique (z * 1024) (IZR z * 1024)).
  - rewrite mult_IZR. field.
  - rewrite mult_IZR. lra.
Qed.

Lemma to_grid_bounds (x : R) :
  x - / 1024 < Rounding.to_grid x <= x.
Proof.
  unfold Rounding.to_grid. rewrite pow_2_10.
  destruct (base_Int_part (x * 1024)) as [B1 B2].
  generalize dependent (IZR (Int_part (x * 1024))). intros k B1 B2.
  split; [ | lra].
  apply Rmult_lt_reg_r with 1024; [lra | ]. field_simplify. lra.
Qed.

Lemma to_grid_monotone : Rounding.monotone Rounding.to_grid.
Proof.
  split; [apply (to_grid_IZR 0) | split].
  - intros x. unfold Rounding.to_grid at 2.
    replace (IZR (Int_part (x * 2 ^ 10)) / 2 ^ 10 * 2 ^ 10)
      with (IZR (Int_part (x * 2 ^ 10))) by (rewrite pow_2_10; field).
    unfold Rounding.to_grid.
    replace (IZR (Int_part (x * 2 ^ 10)) / 2 ^ 10 * 2 ^ 10)
      with (IZR (Int_part (x * 2 ^ 10))) by (rewrite pow_2_10; field).
    rewrite (Int_part_unique (Int_part (x * 2 ^ 10))); [reflexivity | lra].
  - intros x y H. unfold Rounding.to_grid. rewrite pow_2_10.
    assert (Hz : (Int_part (x * 1024) <= Int_part (y * 1024))%Z)
      by (apply Int_part_le; lra).
    apply IZR_le in Hz. lra.
Qed.

Lemma to_grid_nonneg (x : R) : 0 <= x -> 0 <= Rounding.to_grid x.
Proof. apply (monotone_nonneg _ to_grid_monotone). Qed.

Lemma to_grid_0 : Rounding.to_grid 0 = 0.
Proof. apply (to_grid_IZR 0). Qed.

(** The sample state, stepped on the grid. *)
Lemma grid_vel : @vel R (Arith_rounded Rounding.to_grid) 1 0 0 = 1.
Proof.
  unfold_rounded.
  replace (1 * 1) with 1 by ring. replace (0 * 0) with 0 by ring.
  rewrite (to_grid_IZR 1), to_grid_0.
  replace (1 + 0) with 1 by ring. rewrite (to_grid_IZR 1).
  replace (1 + 0) with 1 by ring. rewrite (to_grid_IZR 1).
  rewrite sqrt_1. apply (to_grid_IZR 1).
Qed.

Lemma grid_dm :
  0 <= @dm R (Arith_rounded Rounding.to_grid) 1 1 0 0 1 (178 / 1000) 0 0
    <= 1 / 10.
Proof.
  split.
  - apply (rounded_dm_nonneg _ to_grid_nonneg); try lra.
    apply (rounded_delta_u_still_nonneg _ to_grid_0 to_grid_nonneg).
  - unfold dm.
    rewrite (rounded_delta_u_still _ to_grid_0), grid_vel.
    replace (1 - 0) with 1 by ring. rewrite (to_grid_IZR 1).
    unfold alpha_s.
    cbn [mul np_sqrt np_pi lit_2 lit_0_057 Arith_rounded].
    pose proof PI_RGT_0. pose proof JetReal.PI_upper.
    pose proof JetReal.sqrt_2_upper. pose proof (sqrt_pos 2).
    set (g := Rounding.to_grid).
    assert (B : forall x y, 0 <= x <= y -> 0 <= g x <= y).
    { intros x y [Hx Hy]. pose proof (to_grid_bounds x).
      pose proof (to_grid_nonneg x Hx). unfold g. lra. }
    assert (P : 0 <= g PI <= 315 / 100) by (apply B; lra).
    assert (A1 : 0 <= g (2 * g PI) <= 63 / 10) by (apply B; lra).
    assert (R2 : 0 <= g (sqrt 2) <= 1415 / 1000) by (apply B; lra).
    assert (C5 : 0 <= g (57 / 1000) <= 57 / 1000) by (apply B; lra).
    assert (AL : 0 <= g (g (sqrt 2) * g (57 / 1000)) <= 81 / 1000)
      by (apply B; nra).
    assert (K : 0 <= g (g (2 * g PI) * g (g (sqrt 2) * g (57 / 1000)))
                <= 52 / 100) by (apply B; nra).
    set (k := g (g (2 * g PI) * g (g (sqrt 2) * g (57 / 1000)))) in *.
    assert (K1 : 0 <= g (k * (178 / 1000)) <= 1 / 10) by (apply B; nra).
    assert (K2 : 0 <= g (g (k * (178 / 1000)) * 1) <= 1 / 10)
      by (apply B; nra).
    assert (K3 : 0 <= g (g (g (k * (178 / 1000)) * 1) * 1) <= 1 / 10)
      by (apply B; nra).
    apply B. nra.
Qed.

(** The sample state after one step on the grid still moves. *)
Lemma grid_speed_after :
  let s1 := @pipe_discharge_single_timestep R
              (Arith_rounded Rounding.to_grid)
              1 0 100 1 1025 1 0 0 1 (178 / 1000) 0 0 0 0 0 1000 in
  @vel R (Arith_rounded Rounding.to_grid) (st_u s1) (st_v s1) (st_w s1) <> 0.
Proof.
  cbv zeta. unfold pipe_discharge_single_timestep. cbn [st_u st_v st_w].
  pose proof grid_dm as [D0 D1].
  set (g := Rounding.to_grid) in *.
  assert (Hu : 99 / 100 <=
               @u_new R (Arith_rounded g) 1 100 1 0 0 1 (178 / 1000) 0 0).
  { unfold u_new, m_new.
    generalize dependent
      (@dm R (Arith_rounded g) 1 1 0 0 1 (178 / 1000) 0 0).
    intros D D0 D1. cbn [add mul div Arith_rounded].
    replace (100 * 1) with 100 by ring. replace (D * 0) with 0 by ring.
    unfold g. rewrite (to_grid_IZR 100), to_grid_0.
    replace (100 + 0) with 100 by ring. rewrite (to_grid_IZR 100).
    pose proof (to_grid_bounds (100 + D)) as [_ M1].
    assert (M0 : 100 <= Rounding.to_grid (100 + D)).
    { rewrite <- (to_grid_IZR 100) at 1. apply to_grid_monotone. lra. }
    generalize dependent (Rounding.to_grid (100 + D)). intros M M1 M0.
    pose proof (to_grid_bounds (100 / M)) as [Q _].
    assert (E : 100 / M * M = 100) by (field; lra).
    generalize dependent (100 / M). intros q Q E.
    assert (998 / 1000 <= q) by nra. lra. }
  unfold vel.
  generalize dependent
    (@u_new R (Arith_rounded g) 1 100 1 0 0 1 (178 / 1000) 0 0).
  generalize
    (@v_new R (Arith_rounded g) 1 100 1 0 0 1 (178 / 1000) 0 0).
  generalize
    (@w_new R (Arith_rounded g) 1 100 1025 1 0 0 1 (178 / 1000) 0 0 1000).
  intros w1 v1 u1 Hu. cbn [add mul np_sqrt Arith_rounded].
  assert (B : forall x, x - / 1024 < g x) by (intros x; apply to_grid_bounds).
  assert (N : forall x, 0 <= x -> 0 <= g x) by apply to_grid_nonneg.
  assert (Hv : 0 <= g (v1 * v1)) by (apply N; nra).
  assert (Hw : 0 <= g (w1 * w1)) by (apply N; nra).
  pose proof (B (u1 * u1)) as B1.
  pose proof (B (g (u1 * u1) + g (v1 * v1))) as B2.
  pose proof (B (g (g (u1 * u1) + g (v1 * v1)) + g (w1 * w1))) as B3.
  set (S := g (g (g (u1 * u1) + g (v1 * v1)) + g (w1 * w1))) in *.
  assert (HS : 81 / 100 <= S) by nra.
  assert (Hq : 9 / 10 <= sqrt S).
  { replace (9 / 10) with (sqrt (81 / 100)).
    - apply sqrt_le_1; lra.
    - replace (81 / 100) with ((9 / 10) * (9 / 10)) by field.
      apply sqrt_square. lra. }
  pose proof (B (sqrt S)). lra.
Qed.

Lemma mass_nondecreasing_witness :
  Rounding.monotone Rounding.to_grid /\
  100 <= st_m (@pipe_discharge_single_timestep R
                 (Arith_rounded Rounding.to_grid)
                 1 0 100 1 1025 1 0 0 1 (178 / 1000) 0 0 0 0 0 1000)
  /\
  Sorted mass_le
    (@trajectory R (Arith_rounded Rounding.to_grid) 1
       (mk_state 0 100 1 1025 1 0 0 1 (178 / 1000) 0 0 0)
       [mk_ambient 0 0 1000; mk_ambient 0 0 1000]).
Proof.
  pose proof to_grid_monotone as Hg.
  pose proof (to_grid_IZR 100) as H100.
  assert (Hv : @vel R (Arith_rounded Rounding.to_grid) 1 0 0 <> 0)
    by (rewrite grid_vel; lra).
  pose proof (rounded_delta_u_still_nonneg _ to_grid_0 to_grid_nonneg) as Hd.
  split; [exact Hg | split].
  - apply (proj1 (mass_nondecreasing _ Hg));
      [exact H100 | exact Hv | apply Hd | lra | lra | lra].
  - apply (proj2 (mass_nondecreasing _ Hg)); [lra | exact H100 | ].
    simpl. split; [ | split; [ | exact I]].
    + split; [exact Hv | split; [apply Hd | lra]].
    + split; [apply grid_speed_after | ].
      split; [apply Hd | ]. unfold pipe_discharge_single_timestep.
      cbn [st_b st_h]. split.
      * apply (b_new_nonneg _ to_grid_nonneg).
      * apply (h_new_nonneg _ to_grid_nonneg); [exact Hv | lra].
Defined.

(** *** Roundings with a bounded relative error *)

Section relative_error.
Variables (eps : R) (rnd : R -> R).
Hypothesis Hrnd : Rounding.within eps rnd.

Lemma eps_nonneg : 0 <= eps.
Proof.
  pose proof (Hrnd 1) as H. rewrite Rabs_R1, Rmult_1_r in H.
  pose proof (Rabs_pos (rnd 1 - 1)). lra.
Qed.

Lemma rnd_abs (x : R) : Rabs (rnd x) <= (1 + eps) * Rabs x.
Proof.
  pose proof (Hrnd x) as H.
  replace (rnd x) with ((rnd x - x) + x) by ring.
  eapply Rle_trans; [apply Rabs_triang | ]. lra.
Qed.

(** A rounded quotient of a rounded [p] by [M], multiplied back by [M]. *)
Lemma quotient_times_divisor (p M : R) :
  M <> 0 ->
  Rabs (M * rnd (rnd p / M) - p) <= (2 * eps + eps * eps) * Rabs p.
Proof.
  intros HM.
  pose proof eps_nonneg as He.
  pose proof (Hrnd p) as H1. pose proof (rnd_abs p) as H1'.
  pose proof (Hrnd (rnd p / M)) as H2.
  assert (E : M * rnd (rnd p / M) - p
              = M * (rnd (rnd p / M) - rnd p / M) + (rnd p - p))
    by (field; exact HM).
  rewrite E. eapply Rle_trans; [apply Rabs_triang | ].
  rewrite Rabs_mult.
  assert (H3 : Rabs M * Rabs (rnd (rnd p / M) - rnd p / M)
               <= eps * Rabs (rnd p)).
  { replace (Rabs (rnd p)) with (Rabs M * Rabs (rnd p / M)).
    - pose proof (Rabs_pos M).
      replace (eps * (Rabs M * Rabs (rnd p / M)))
        with (Rabs M * (eps * Rabs (rnd p / M))) by ring.
      apply Rmult_le_compat_l; assumption.
    - rewrite <- Rabs_mult. f_equal. field. exact HM. }
  pose proof (Rabs_pos p).
  generalize dependent (Rabs (rnd p)). intros a H1' H3.
  generalize dependent (Rabs (rnd p - p)). intros d H1.
  generalize dependent (Rabs M * Rabs (rnd (rnd p / M) - rnd p / M)).
  intros e H3. nra.
Qed.

End relative_error.

(** C9, amended.  In arithmetic that returns a number from every operation,
    within a relative error [eps] of the exact result, a step from a non-zero
    speed to a non-zero new mass conserves the product of mass and tracer
    up to rounding: the product of the returned mass and tracer is within
    [(2 eps + eps^2) |m c|] of [m c], its rounded value within
    [(3 eps + 3 eps^2 + eps^3) |m c|], and it is [m c] when nothing is
    rounded. *)
Theorem tracer_mass_conserved
  (eps : R) (rnd : R -> R)
  (dt t m c rho u v w h b x y z ua va rho_a : R) :
  Rounding.within eps rnd ->
  let s := @pipe_discharge_single_timestep R (Arith_rounded rnd)
             dt t m c rho u v w h b x y z ua va rho_a in
  @vel R (Arith_rounded rnd) u v w <> 0 ->
  st_m s <> 0 ->
  Rabs (st_m s * st_c s - m * c) <= (2 * eps + eps * eps) * Rabs (m * c) /\
  Rabs (rnd (st_m s * st_c s) - m * c)
  <= (3 * eps + 3 * (eps * eps) + eps * eps * eps) * Rabs (m * c) /\
  (eps = 0 -> st_m s * st_c s = m * c).
Proof.
  intros Hrnd s _ HM. subst s. revert HM.
  unfold pipe_discharge_single_timestep. cbn [st_m st_c]. unfold c_new.
  generalize (@m_new R (Arith_rounded rnd) dt m u v w h b ua va).
  intros M HM. cbn [mul div Arith_rounded].
  pose proof (quotient_times_divisor eps rnd Hrnd (m * c) M HM) as H1.
  pose proof (eps_nonneg eps rnd Hrnd) as He.
  pose proof (Rabs_pos (m * c)) as Hp.
  split; [exact H1 | split].
  - pose proof (Hrnd (M * rnd (rnd (m * c) / M))) as H2.
    assert (H3 : Rabs (M * rnd (rnd (m * c) / M))
                 <= (1 + (2 * eps + eps * eps)) * Rabs (m * c)).
    { replace (M * rnd (rnd (m * c) / M))
        with ((M * rnd (rnd (m * c) / M) - m * c) + m * c) by ring.
      eapply Rle_trans; [apply Rabs_triang | ]. lra. }
    replace (rnd (M * rnd (rnd (m * c) / M)) - m * c)
      with ((rnd (M * rnd (rnd (m * c) / M)) - M * rnd (rnd (m * c) / M))
            + (M * rnd (rnd (m * c) / M) - m * c)) by ring.
    eapply Rle_trans; [apply Rabs_triang | ].
    generalize dependent (Rabs (M * rnd (rnd (m * c) / M))). intros a H2 H3.
    generalize dependent
      (Rabs (rnd (M * rnd (rnd (m * c) / M)) - M * rnd (rnd (m * c) / M))).
    intros d H2.
    generalize dependent (Rabs (M * rnd (rnd (m * c) / M) - m * c)).
    intros e H1. nra.
  - intros E0. rewrite E0 in H1.
    replace ((2 * 0 + 0 * 0) * Rabs (m * c)) with 0 in H1 by ring.
    pose proof (Rabs_pos (M * rnd (rnd (m * c) / M) - m * c)) as Hq.
    assert (Hz : Rabs (M * rnd (rnd (m * c) / M) - m * c) = 0) by lra.
    destruct (Req_dec (M * rnd (rnd (m * c) / M) - m * c) 0) as [Z | N].
    + lra.
    + apply Rabs_no_R0 in N. contradiction.
Qed.

(** *** Rounding towards zero by a relative unit *)

Lemma unit_roundoff : 0 < / 2 ^ 53 < 1.
Proof.
  assert (H : 2 <= 2 ^ 53) by (simpl; lra).
  split.
  - apply Rinv_0_lt_compat. lra.
  - rewrite <- Rinv_1. apply Rinv_lt_contravar; lra.
Qed.

Lemma chop_within : Rounding.within (/ 2 ^ 53) Rounding.chop.
Proof.
  intros x. unfold Rounding.chop. pose proof unit_roundoff as [H0 H1].
  replace (x * (1 - / 2 ^ 53) - x) with (- (/ 2 ^ 53 * x)) by ring.
  rewrite Rabs_Ropp, Rabs_mult, (Rabs_pos_eq (/ 2 ^ 53)); lra.
Qed.

Lemma chop_0 : Rounding.chop 0 = 0.
Proof. unfold Rounding.chop. ring. Qed.

Lemma chop_pos (x : R) : 0 < x -> 0 < Rounding.chop x.
Proof.
  intros H. unfold Rounding.chop. pose proof unit_roundoff.
  apply Rmult_lt_0_compat; lra.
Qed.

Lemma chop_nonneg (x : R) : 0 <= x -> 0 <= Rounding.chop x.
Proof.
  intros H. unfold Rounding.chop. pose proof unit_roundoff.
  apply Rmult_le_pos; lra.
Qed.

Lemma chop_vel : 0 < @vel R (Arith_rounded Rounding.chop) 1 0 0.
Proof.
  unfold_rounded.
  replace (0 * 0) with 0 by ring. rewrite chop_0, !Rplus_0_r.
  apply chop_pos, sqrt_lt_R0. do 3 apply chop_pos. lra.
Qed.

Lemma chop_sample_mass (c : R) :
  st_m (@pipe_discharge_single_timestep R (Arith_rounded Rounding.chop)
          1 0 100 c 1025 1 0 0 1 (178 / 1000) 0 0 0 0 0 1000) <> 0.
Proof.
  unfold pipe_discharge_single_timestep, m_new. cbn [st_m].
  assert (D : 0 <= @dm R (Arith_rounded Rounding.chop)
                     1 1 0 0 1 (178 / 1000) 0 0).
  { apply (rounded_dm_nonneg _ chop_nonneg); try lra.
    apply (rounded_delta_u_still_nonneg _ chop_0 chop_nonneg). }
  generalize dependent
    (@dm R (Arith_rounded Rounding.chop) 1 1 0 0 1 (178 / 1000) 0 0).
  intros D HD. cbn [add Arith_rounded].
  assert (0 < Rounding.chop (100 + D)) by (apply chop_pos; lra). lra.
Qed.

Lemma tracer_mass_conserved_witness :
  let eps := / 2 ^ 53 in
  let s := @pipe_discharge_single_timestep R (Arith_rounded Rounding.chop)
             1 0 100 (3 / 10) 1025 1 0 0 1 (178 / 1000) 0 0 0 0 0 1000 in
  Rounding.within eps Rounding.chop /\
  @vel R (Arith_rounded Rounding.chop) 1 0 0 <> 0 /\
  st_m s <> 0 /\
  Rabs (st_m s * st_c s - 100 * (3 / 10))
  <= (2 * eps + eps * eps) * Rabs (100 * (3 / 10)) /\
  Rabs (Rounding.chop (st_m s * st_c s) - 100 * (3 / 10))
  <= (3 * eps + 3 * (eps * eps) + eps * eps * eps) * Rabs (100 * (3 / 10)) /\
  (eps = 0 -> st_m s * st_c s = 100 * (3 / 10)).
Proof.
  intros eps s.
  assert (Hv : @vel R (Arith_rounded Rounding.chop) 1 0 0 <> 0)
    by (pose proof chop_vel; lra).
  pose proof (chop_sample_mass (3 / 10)) as HM.
  split; [exact chop_within | split; [exact Hv | split; [exact HM | ]]].
  apply (tracer_mass_conserved eps Rounding.chop
           1 0 100 (3 / 10) 1025 1 0 0 1 (178 / 1000) 0 0 0 0 0 1000
           chop_within Hv HM).
Defined.

End JetRounded.

(** ** Rounding in binary64 *)

Module JetFloatRounding.
Import Jet.
Local Open Scope float_scope.
#[local] Set Warnings "-inexact-float".

(** The mixing formulas hold of the binary64 step as they do of the exact
    one, each operation being the rounded one. *)
Lemma inmixing_float
  (dt t m c rho u v w h b x y z ua va rho_a : float) :
  let s := pipe_discharge_single_timestep
             dt t m c rho u v w h b x y z ua va rho_a in
  let V := PrimFloat.sqrt (u * u + v * v + w * w) in
  let Dm := 2 * 0x1.921fb54442d18p+1 * (PrimFloat.sqrt 2 * 0.057) * b * h
            * (V - (ua * u + va * v + 0 * w) / V) * dt in
  st_m s = m + Dm /\
  st_rho s = (m * rho + Dm * rho_a) / (m + Dm) /\
  st_c s = m * c / (m + Dm) /\
  st_u s = (m * u + Dm * ua) / (m + Dm) /\
  st_v s = (m * v + Dm * va) / (m + Dm).
Proof. repeat split. Qed.

Example inmixing_sample_float :
  let s := pipe_discharge_single_timestep
             1 0 100 1 1025 1 0 0 1 0.178 0 0 0 0 0 1000 in
  st_rho s = 1024.9774815563533 /\
  st_c s = 0.99909926225412882 /\
  st_u s = 0.99909926225412882 /\
  st_v s = 0.
Proof. vm_compute. repeat split. Qed.

(** C7, as stated, fails: with a radius and a thickness of [1e200] their
    product overflows, and over [dt = 0] the entrained mass is
    [infinity * 0]; [delta_u], the radius, the thickness and [dt] are
    non-negative and the returned mass is a NaN, which is not at least the
    mass given. *)
Lemma overflow_mass_counterexample :
  let s := pipe_discharge_single_timestep
             0 0 100 1 1025 1 0 0 1e200 1e200 0 0 0 0 0 1000 in
  (0 <=? delta_u 1 0 0 0 0) = true /\
  (0 <=? 1e200) = true /\ (0 <=? 0) = true /\
  is_nan (st_m s) = true /\ (100 <=? st_m s) = false.
Proof. vm_compute. repeat split. Qed.

(** C9, as stated, fails: the sample step with the tracer [0.3] returns a
    non-zero mass whose product with the returned tracer is not
    [100 * 0.3]. *)
Lemma tracer_mass_counterexample :
  let s := pipe_discharge_single_timestep
             1 0 100 0.3 1025 1 0 0 1 0.178 0 0 0 0 0 1000 in
  is_zero (st_m s) = false /\
  st_m s * st_c s = 29.999999999999996 /\
  100 * 0.3 = 30 /\
  (st_m s * st_c s =? 100 * 0.3) = false.
Proof. vm_compute. repeat split. Qed.

(** A steady state in binary64: the mass and the tracer move in their last
    digits. *)
Example steady_state_float :
  let s := pipe_discharge_single_timestep
             1 0 1 1 1025 1 1 0 1 1 0 0 0 1 1 1025 in
  st_m s = 1.0000000000000002 /\ st_c s = 0.99999999999999978 /\
  st_rho s = 1025 /\ st_u s = 1 /\ st_v s = 1 /\ st_w s = 0.
Proof. vm_compute. repeat split. Qed.

End JetFloatRounding.
